(** * platform-top.h: the U-Boot configuration fragment of the KRM board

    The header
    [software/petalinux/krm/project-spec/meta-user/recipes-bsp/u-boot/files/platform-top.h]
    consists of preprocessor directives only.  It is embedded here as the
    list of its directives, together with the part of the C preprocessor
    that gives them a meaning: the macro table updated by [#define] and
    [#undef], and the replacement of a macro invocation in a token
    stream. *)

From Stdlib Require Import DecimalString.
From stdpp Require Import gmap strings list.

Local Open Scope string_scope.
Local Open Scope list_scope.

(** ** Preprocessing tokens *)

(** The tokens that occur in the header: identifiers, preprocessing
    numbers (only the decimal literals [0] and [1] occur), string
    literals and the three punctuators of a macro invocation. *)
Inductive token :=
| TId (s : string)
| TNum (n : N)
| TStr (s : string)
| TLParen
| TRParen
| TComma.

#[global] Instance token_eq_dec : EqDecision token.
Proof. solve_decision. Defined.

Definition dquote : string := String (Ascii.ascii_of_nat 34) EmptyString.

(** The spelling of a token, as it appears in the source text. *)
Definition spelling (t : token) : string :=
  match t with
  | TId s => s
  | TNum n => NilZero.string_of_uint (N.to_uint n)
  | TStr s => String.append dquote (String.append s dquote)
  | TLParen => "("
  | TRParen => ")"
  | TComma => ","
  end.

(** ** Macros and directives *)

Inductive macro :=
| ObjectLike (body : list token)
| FunctionLike (params : list string) (body : list token).

#[global] Instance macro_eq_dec : EqDecision macro.
Proof. solve_decision. Defined.

Definition macro_body (m : macro) : list token :=
  match m with
  | ObjectLike body => body
  | FunctionLike _ body => body
  end.

Inductive directive :=
| Include (header : string)
| Define (name : string) (m : macro)
| Undef (name : string).

(** ** The header, line by line *)

(** Line 3: [#define CONFIG_BOOTCOMMAND "run bootcmd_pxe"]. *)
Definition CONFIG_BOOTCOMMAND : macro :=
  ObjectLike [TStr "run bootcmd_pxe"].

(** Lines 6 to 11:
<<
  #define BOOT_TARGET_DEVICES(func) \
          func(PXE, pxe, na) \
          func(MMC, mmc, 1) \
          func(MMC, mmc, 0) \
          func(USB, usb, 0) \
          func(DHCP, dhcp, na)
>> *)
Definition BOOT_TARGET_DEVICES : macro :=
  FunctionLike ["func"]
    [ TId "func"; TLParen; TId "PXE"; TComma; TId "pxe"; TComma; TId "na"; TRParen;
      TId "func"; TLParen; TId "MMC"; TComma; TId "mmc"; TComma; TNum 1; TRParen;
      TId "func"; TLParen; TId "MMC"; TComma; TId "mmc"; TComma; TNum 0; TRParen;
      TId "func"; TLParen; TId "USB"; TComma; TId "usb"; TComma; TNum 0; TRParen;
      TId "func"; TLParen; TId "DHCP"; TComma; TId "dhcp"; TComma; TId "na"; TRParen ].

(** The whole file: line 1 includes the vendor configuration, line 3
    defines the boot command, line 5 removes the vendor's device list and
    lines 6 to 11 define the new one. *)
Definition platform_top_h : list directive :=
  [ Include "configs/xilinx_zynqmp.h";
    Define "CONFIG_BOOTCOMMAND" CONFIG_BOOTCOMMAND;
    Undef "BOOT_TARGET_DEVICES";
    Define "BOOT_TARGET_DEVICES" BOOT_TARGET_DEVICES ].

(** ** Directives: the macro table *)

(** The preprocessor reports a macro that is defined again with a
    different replacement list (and goes on with the new definition).
    These redefinition diagnostics are the only ones the state records:
    what a preprocessor reports about the layout of a file is not part of
    it (gcc reports a backslash-newline at end of file for this header on
    every pass, as the file ends without a newline in the continued
    definition of lines 6 to 11). *)
Inductive diagnostic :=
| Redefined (name : string).

(** [macros] holds every macro that is defined at this point, those the
    compiler predefines included. *)
Record cpp_state := {
  macros : gmap string macro;
  diags : list diagnostic
}.

Definition define (name : string) (m : macro) (st : cpp_state) : cpp_state :=
  match macros st !! name with
  | Some old =>
      if decide (old = m) then st
      else {| macros := <[name := m]> (macros st);
              diags := diags st ++ [Redefined name] |}
  | None => {| macros := <[name := m]> (macros st); diags := diags st |}
  end.

Definition undef (name : string) (st : cpp_state) : cpp_state :=
  {| macros := delete name (macros st); diags := diags st |}.

(** The included file [configs/xilinx_zynqmp.h] belongs to U-Boot, not to
    this repository: what an [#include] does to the state is a parameter
    of the semantics. *)
Definition include_handler := string -> cpp_state -> cpp_state.

Definition run_directive (inc : include_handler) (d : directive)
    (st : cpp_state) : cpp_state :=
  match d with
  | Include h => inc h st
  | Define name m => define name m st
  | Undef name => undef name st
  end.

Definition run_header (inc : include_handler) (ds : list directive)
    (st : cpp_state) : cpp_state :=
  foldl (fun s d => run_directive inc d s) st ds.

(** The names a header removes, and the names it defines. *)
Definition undefined_names (ds : list directive) : list string :=
  omap (fun d => match d with Undef n => Some n | _ => None end) ds.

Definition defined_names (ds : list directive) : list string :=
  omap (fun d => match d with Define n _ => Some n | _ => None end) ds.

(** [guarded_define name ds]: the header defines [name], and an [#undef]
    of [name] stands before its first [#define]. *)
Fixpoint guarded_define (name : string) (ds : list directive) : bool :=
  match ds with
  | [] => false
  | Undef n :: ds' =>
      if String.eqb n name then bool_decide (name ∈ defined_names ds')
      else guarded_define name ds'
  | Define n _ :: ds' =>
      if String.eqb n name then false else guarded_define name ds'
  | Include _ :: ds' => guarded_define name ds'
  end.

(** ** Macro replacement *)

Fixpoint param_arg (x : string) (bind : list (string * list token))
    : option (list token) :=
  match bind with
  | [] => None
  | (p, a) :: bind' => if String.eqb p x then Some a else param_arg x bind'
  end.

(** Every parameter in the replacement list is replaced by its argument. *)
Fixpoint subst_params (bind : list (string * list token)) (body : list token)
    : list token :=
  match body with
  | [] => []
  | TId x :: body' =>
      match param_arg x bind with
      | Some a => a ++ subst_params bind body'
      | None => TId x :: subst_params bind body'
      end
  | t :: body' => t :: subst_params bind body'
  end.

(** The invocation of a function-like macro; it fails when the number of
    arguments is not the number of parameters.  [M()] gives a macro
    without parameters no argument. *)
Definition invoke (params : list string) (body : list token)
    (args : list (list token)) : option (list token) :=
  let args' := match params, args with [], [[]] => [] | _, _ => args end in
  if decide (length params = length args')
  then Some (subst_params (zip params args') body)
  else None.

(** One pass over a token stream replaces the invocations of the macros
    that are visible; all other tokens are emitted as they are.  The
    scanner reads one token at a time: outside an invocation ([Copy]),
    after the name of a function-like macro ([Name], an invocation only
    when a left parenthesis follows), and between the parentheses of an
    invocation ([Args], splitting the arguments at the commas that are not
    nested in parentheses).  It is one pass: a replacement is emitted and
    not scanned again, and an argument is substituted as it is written; a
    text is fully replaced once a pass finds no macro in it. *)
Inductive replacement (A : Type) :=
| RObject (out : list A)
| RFunction (f : list (list token) -> option (list A)).
Arguments RObject {A} out.
Arguments RFunction {A} f.

Inductive mode (A : Type) :=
| Copy
| Name (n : string) (f : list (list token) -> option (list A))
| Args (f : list (list token) -> option (list A)) (depth : nat)
       (done : list (list token)) (cur : list token).
Arguments Copy {A}.
Arguments Name {A} n f.
Arguments Args {A} f depth done cur.

Definition start {A} (visible : string -> option (replacement A))
    (emit : token -> A) (t : token) : mode A * list A :=
  match t with
  | TId n =>
      match visible n with
      | Some (RObject out) => (Copy, out)
      | Some (RFunction f) => (Name n f, [])
      | None => (Copy, [emit t])
      end
  | _ => (Copy, [emit t])
  end.

Fixpoint scan {A} (visible : string -> option (replacement A))
    (emit : token -> A) (md : mode A) (ts : list token) : option (list A) :=
  match ts with
  | [] =>
      match md with
      | Copy => Some []
      | Name n _ => Some [emit (TId n)]
      | Args _ _ _ _ => None
      end
  | t :: ts' =>
      match md with
      | Copy =>
          let '(md', out) := start visible emit t in
          app out <$> scan visible emit md' ts'
      | Name n f =>
          match t with
          | TLParen => scan visible emit (Args f 0 [] []) ts'
          | _ =>
              let '(md', out) := start visible emit t in
              app (emit (TId n) :: out) <$> scan visible emit md' ts'
          end
      | Args f d done cur =>
          match t, d with
          | TRParen, 0 =>
              out ← f (done ++ [cur]);
              app out <$> scan visible emit Copy ts'
          | TRParen, S d' => scan visible emit (Args f d' done (cur ++ [t])) ts'
          | TLParen, _ => scan visible emit (Args f (S d) done (cur ++ [t])) ts'
          | TComma, 0 => scan visible emit (Args f 0 (done ++ [cur]) []) ts'
          | _, _ => scan visible emit (Args f d done (cur ++ [t])) ts'
          end
      end
  end.

(** The macros of the table, as the scanner sees them. *)
Definition table_view (tbl : gmap string macro) (n : string)
    : option (replacement token) :=
  match tbl !! n with
  | Some (ObjectLike body) => Some (RObject body)
  | Some (FunctionLike params body) => Some (RFunction (invoke params body))
  | None => None
  end.

Definition replace_macros (tbl : gmap string macro) (ts : list token)
    : option (list token) :=
  scan (table_view tbl) id Copy ts.

(** ** The generator *)

(** [BOOT_TARGET_DEVICES] takes the name of another function-like macro,
    the generator, and invokes it with three arguments at a time.  The
    generator belongs to the user of the header (U-Boot's distro boot
    command); here it is a function from the three argument tokens to the
    fragment it produces.  As the name of a function-like macro that no
    parenthesis follows, the argument [func] is not replaced before it is
    substituted; the invocations of the generator are replaced when the
    result is scanned again.  The name [g] of a generator is the name of a
    macro of three parameters, so not [BOOT_TARGET_DEVICES] itself, whose
    name is not replaced again within its own replacement. *)
Definition generator (A : Type) := token -> token -> token -> list A.

Definition generator_view {A} (g : string) (gen : generator A) (n : string)
    : option (replacement A) :=
  if String.eqb n g
  then Some (RFunction (fun args =>
         match args with
         | [[c]; [t]; [q]] => Some (gen c t q)
         | _ => None
         end))
  else None.

Definition rescan {A} (g : string) (gen : generator A) (emit : token -> A)
    (ts : list token) : option (list A) :=
  scan (generator_view g gen) emit Copy ts.

(** The expansion of a text: a first pass replaces the macros of the table,
    a second pass the invocations of the generator in the result. *)
Definition expand {A} (tbl : gmap string macro) (g : string)
    (gen : generator A) (emit : token -> A) (ts : list token)
    : option (list A) :=
  replace_macros tbl ts ≫= rescan g gen emit.

(** The text [BOOT_TARGET_DEVICES(g)]. *)
Definition invocation (g : string) : list token :=
  [TId "BOOT_TARGET_DEVICES"; TLParen; TId g; TRParen].

(** A boot target entry: device class, transport and instance qualifier,
    the three arguments of one invocation of the generator. *)
Definition entry : Type := token * token * token.

Definition entry_class (e : entry) : token := e.1.1.
Definition entry_transport (e : entry) : token := e.1.2.
Definition entry_qualifier (e : entry) : token := e.2.

Definition apply_generator {A} (gen : generator A) (e : entry) : list A :=
  gen (entry_class e) (entry_transport e) (entry_qualifier e).

(** The device list: what the generator is invoked with, in order.  A
    token of the expansion that is not part of an invocation of the
    generator would show as [inl]. *)
Definition record_entry : generator (token + entry) :=
  fun c t q => [inr (c, t, q)].

Definition device_list (tbl : gmap string macro) (g : string)
    : option (list (token + entry)) :=
  expand tbl g record_entry inl (invocation g).

(** The generator [f(class, transport, qualifier) = "try <transport><qualifier>"]. *)
Definition try_generator : generator string :=
  fun _ t q => [String.append "try " (String.append (spelling t) (spelling q))].

(** ** The boot command *)

(** U-Boot's distro boot command names the script of a boot target
    [bootcmd_<transport>] for a network target (qualifier [na]) and
    [bootcmd_<transport><instance>] for a storage target; [run <script>]
    executes it. *)
Definition target_name (e : entry) : string :=
  match entry_qualifier e with
  | TNum _ => String.append (spelling (entry_transport e)) (spelling (entry_qualifier e))
  | _ => spelling (entry_transport e)
  end.

Definition run_target (e : entry) : string :=
  String.append "run bootcmd_" (target_name e).

(** ** The configured build *)

(** The state in which the header finds the preprocessor after line 1, and
    the macro table it leaves behind. *)
Definition vendor_state (inc : include_handler) (st0 : cpp_state) : cpp_state :=
  inc "configs/xilinx_zynqmp.h" st0.

Definition configured (inc : include_handler) (st0 : cpp_state)
    : gmap string macro :=
  macros (run_header inc platform_top_h st0).

(** A token that can stand as an argument of its own. *)
Definition plain (t : token) : bool :=
  match t with
  | TLParen | TRParen | TComma => false
  | _ => true
  end.

Definition generator_call (g : string) (c t q : token) : list token :=
  [TId g; TLParen; c; TComma; t; TComma; q; TRParen].

(** The transports of the network targets and of the storage targets. *)
Definition network (e : entry) : bool :=
  bool_decide (entry_transport e ∈ [TId "pxe"; TId "dhcp"]).

Definition storage (e : entry) : bool :=
  bool_decide (entry_transport e ∈ [TId "mmc"; TId "usb"]).

Definition target (e : entry) : token * token :=
  (entry_transport e, entry_qualifier e).

(** A vendor configuration to try the header on (an illustration, not the
    text of U-Boot's header): it has a boot command and a device list of
    its own, and a third macro the header does not mention. *)
Definition example_vendor : include_handler :=
  fun _ st =>
    define "CONFIG_SYS_MAXARGS" (ObjectLike [TNum 64])
      (define "BOOT_TARGET_DEVICES"
         (FunctionLike ["func"]
            [TId "func"; TLParen; TId "MMC"; TComma; TId "mmc"; TComma;
             TNum 0; TRParen])
         (define "CONFIG_BOOTCOMMAND" (ObjectLike [TStr "run distro_bootcmd"])
            st)).

Definition empty_state : cpp_state := {| macros := ∅; diags := [] |}.

(** The invocation of a macro of the table by name. *)
Definition call_macro (tbl : gmap string macro) (name : string)
    (args : list (list token)) : option (list token) :=
  match tbl !! name with
  | Some (FunctionLike params body) => invoke params body args
  | _ => None
  end.

(** The identifiers of a text, and the identifiers of a replacement list
    that are not parameters of the macro. *)
Definition identifiers (ts : list token) : list string :=
  omap (fun t => match t with TId n => Some n | _ => None end) ts.

Definition free_identifiers (m : macro) : list string :=
  match m with
  | ObjectLike body => identifiers body
  | FunctionLike params body =>
      filter (fun n => n ∉ params) (identifiers body)
  end.

(** [argument_ok d ts]: the text [ts], read [d] parentheses deep, is one
    argument of an invocation: its parentheses are balanced and no comma
    stands outside them. *)
Fixpoint argument_ok (d : nat) (ts : list token) : bool :=
  match ts with
  | [] => match d with 0 => true | S _ => false end
  | TLParen :: ts' => argument_ok (S d) ts'
  | TRParen :: ts' =>
      match d with
      | 0 => false
      | S d' => argument_ok d' ts'
      end
  | TComma :: ts' =>
      match d with
      | 0 => false
      | S _ => argument_ok d ts'
      end
  | _ :: ts' => argument_ok d ts'
  end.

(** The redefinition diagnostic of line 3, which defines the boot command
    without removing the vendor's: none when the vendor configuration has
    no boot command or the same one. *)
Definition bootcommand_diagnostic (vendor : gmap string macro)
    : list diagnostic :=
  match vendor !! "CONFIG_BOOTCOMMAND" with
  | Some old =>
      if decide (old = CONFIG_BOOTCOMMAND) then []
      else [Redefined "CONFIG_BOOTCOMMAND"]
  | None => []
  end.

(** The example vendor configuration behind an include guard: a second
    [#include] of it changes nothing. *)
Definition guarded_vendor : include_handler :=
  fun h st =>
    match macros st !! "__CONFIG_ZYNQMP_H" with
    | Some _ => st
    | None => example_vendor h (define "__CONFIG_ZYNQMP_H" (ObjectLike []) st)
    end.

(** * Properties *)

(** ** The macro table *)

Lemma macros_define name m st :
  macros (define name m st) = <[name := m]> (macros st).
Proof.
  unfold define. destruct (macros st !! name) as [old|] eqn:E; [|done].
  case_decide; [|done]. subst old. by rewrite insert_id.
Qed.

Lemma macros_undef name st :
  macros (undef name st) = delete name (macros st).
Proof. done. Qed.

Lemma diags_define_fresh name m st :
  macros st !! name = None -> diags (define name m st) = diags st.
Proof. intros E. unfold define. by rewrite E. Qed.

Lemma diags_define_same name m st :
  macros st !! name = Some m -> diags (define name m st) = diags st.
Proof. intros E. unfold define. rewrite E. by rewrite decide_True. Qed.

Lemma diags_define_other name m old st :
  macros st !! name = Some old -> old <> m ->
  diags (define name m st) = diags st ++ [Redefined name].
Proof. intros E Hne. unfold define. rewrite E. by rewrite decide_False. Qed.

Section Configured.
Variable inc : include_handler.
Variable st0 : cpp_state.

Lemma configured_eq :
  configured inc st0 =
  <["BOOT_TARGET_DEVICES" := BOOT_TARGET_DEVICES]>
    (<["CONFIG_BOOTCOMMAND" := CONFIG_BOOTCOMMAND]>
       (macros (vendor_state inc st0))).
Proof.
  unfold configured, platform_top_h, run_header; simpl.
  rewrite macros_define, macros_undef, macros_define.
  by rewrite insert_delete_eq.
Qed.

Lemma configured_targets :
  configured inc st0 !! "BOOT_TARGET_DEVICES" = Some BOOT_TARGET_DEVICES.
Proof. rewrite configured_eq. apply lookup_insert_eq. Qed.

Lemma configured_bootcommand :
  configured inc st0 !! "CONFIG_BOOTCOMMAND" = Some CONFIG_BOOTCOMMAND.
Proof.
  rewrite configured_eq, lookup_insert_ne by done. apply lookup_insert_eq.
Qed.

Lemma configured_frame n :
  n <> "CONFIG_BOOTCOMMAND" -> n <> "BOOT_TARGET_DEVICES" ->
  configured inc st0 !! n = macros (vendor_state inc st0) !! n.
Proof.
  intros H1 H2. rewrite configured_eq.
  by rewrite !lookup_insert_ne.
Qed.

(** The only diagnostic the header can cause: the vendor configuration
    had a different boot command, which line 3 defines again without
    removing it first. *)
Lemma diags_bootcommand_redefined old :
  macros (vendor_state inc st0) !! "CONFIG_BOOTCOMMAND" = Some old ->
  old <> CONFIG_BOOTCOMMAND ->
  diags (run_header inc platform_top_h st0) =
  diags (vendor_state inc st0) ++ [Redefined "CONFIG_BOOTCOMMAND"].
Proof.
  intros E Hne. unfold platform_top_h, run_header; simpl.
  rewrite diags_define_fresh.
  - simpl. by apply diags_define_other with old.
  - rewrite macros_undef. apply lookup_delete_eq.
Qed.

Lemma diags_bootcommand_same :
  macros (vendor_state inc st0) !! "CONFIG_BOOTCOMMAND"
    = Some CONFIG_BOOTCOMMAND ->
  diags (run_header inc platform_top_h st0) = diags (vendor_state inc st0).
Proof.
  intros E. unfold platform_top_h, run_header; simpl.
  rewrite diags_define_fresh.
  - simpl. by apply diags_define_same.
  - rewrite macros_undef. apply lookup_delete_eq.
Qed.

Lemma diags_bootcommand_fresh :
  macros (vendor_state inc st0) !! "CONFIG_BOOTCOMMAND" = None ->
  diags (run_header inc platform_top_h st0) = diags (vendor_state inc st0).
Proof.
  intros E. unfold platform_top_h, run_header; simpl.
  rewrite diags_define_fresh.
  - simpl. by apply diags_define_fresh.
  - rewrite macros_undef. apply lookup_delete_eq.
Qed.
End Configured.

(** ** One invocation of [BOOT_TARGET_DEVICES] *)

(** What [BOOT_TARGET_DEVICES(g)] is replaced by: the replacement list of
    the macro with [g] for [func]. *)
Lemma invoke_targets (arg : list token) :
  invoke ["func"] (macro_body BOOT_TARGET_DEVICES) [arg] =
  Some (arg ++ [TLParen; TId "PXE"; TComma; TId "pxe"; TComma; TId "na"; TRParen]
     ++ arg ++ [TLParen; TId "MMC"; TComma; TId "mmc"; TComma; TNum 1; TRParen]
     ++ arg ++ [TLParen; TId "MMC"; TComma; TId "mmc"; TComma; TNum 0; TRParen]
     ++ arg ++ [TLParen; TId "USB"; TComma; TId "usb"; TComma; TNum 0; TRParen]
     ++ arg ++ [TLParen; TId "DHCP"; TComma; TId "dhcp"; TComma; TId "na"; TRParen]).
Proof. reflexivity. Qed.

Lemma replace_invocation tbl g rest :
  tbl !! "BOOT_TARGET_DEVICES" = Some BOOT_TARGET_DEVICES ->
  replace_macros tbl (invocation g ++ rest) =
  app (generator_call g (TId "PXE") (TId "pxe") (TId "na")
       ++ generator_call g (TId "MMC") (TId "mmc") (TNum 1)
       ++ generator_call g (TId "MMC") (TId "mmc") (TNum 0)
       ++ generator_call g (TId "USB") (TId "usb") (TNum 0)
       ++ generator_call g (TId "DHCP") (TId "dhcp") (TId "na"))
    <$> replace_macros tbl rest.
Proof.
  intros Htbl. unfold replace_macros, invocation.
  cbn [app scan start]. unfold table_view at 1. rewrite Htbl.
  unfold BOOT_TARGET_DEVICES at 1. cbn [scan app].
  rewrite invoke_targets. cbn [mbind option_bind].
  by destruct (scan (table_view tbl) id Copy rest).
Qed.

Lemma rescan_call {A} g (gen : generator A) emit c t q rest :
  plain c -> plain t -> plain q ->
  rescan g gen emit (generator_call g c t q ++ rest) =
  app (gen c t q) <$> rescan g gen emit rest.
Proof.
  intros Hc Ht Hq. unfold rescan, generator_call.
  cbn [app scan start]. unfold generator_view at 1.
  rewrite String.eqb_refl.
  destruct c; try done; destruct t; try done; destruct q; try done;
    cbn; by destruct (scan _ _ _ rest).
Qed.

Lemma replace_bootcommand tbl :
  tbl !! "CONFIG_BOOTCOMMAND" = Some CONFIG_BOOTCOMMAND ->
  replace_macros tbl [TId "CONFIG_BOOTCOMMAND"] = Some [TStr "run bootcmd_pxe"].
Proof.
  intros Htbl. unfold replace_macros. cbn [scan start].
  unfold table_view. by rewrite Htbl.
Qed.

(** The expansion of [BOOT_TARGET_DEVICES(g)], followed by more text. *)
Lemma expand_invocation {A} tbl g (gen : generator A) emit rest :
  tbl !! "BOOT_TARGET_DEVICES" = Some BOOT_TARGET_DEVICES ->
  expand tbl g gen emit (invocation g ++ rest) =
  app (gen (TId "PXE") (TId "pxe") (TId "na")
       ++ gen (TId "MMC") (TId "mmc") (TNum 1)
       ++ gen (TId "MMC") (TId "mmc") (TNum 0)
       ++ gen (TId "USB") (TId "usb") (TNum 0)
       ++ gen (TId "DHCP") (TId "dhcp") (TId "na"))
    <$> expand tbl g gen emit rest.
Proof.
  intros Htbl. unfold expand. rewrite replace_invocation by done.
  destruct (replace_macros tbl rest) as [ts|]; [|done].
  cbn [fmap option_fmap option_map mbind option_bind].
  rewrite <- !(assoc_L app).
  rewrite !rescan_call by done.
  destruct (rescan g gen emit ts) as [out|]; [|done].
  cbn [fmap option_fmap option_map]. by rewrite <- !(assoc_L app).
Qed.

Lemma expand_nil {A} tbl g (gen : generator A) emit :
  expand tbl g gen emit [] = Some [].
Proof. done. Qed.

(** The expansion in the configured build, for every generator. *)
Lemma expand_configured {A} inc st0 g (gen : generator A) emit :
  expand (configured inc st0) g gen emit (invocation g) =
  Some (gen (TId "PXE") (TId "pxe") (TId "na")
        ++ gen (TId "MMC") (TId "mmc") (TNum 1)
        ++ gen (TId "MMC") (TId "mmc") (TNum 0)
        ++ gen (TId "USB") (TId "usb") (TNum 0)
        ++ gen (TId "DHCP") (TId "dhcp") (TId "na")).
Proof.
  rewrite <- (app_nil_r (invocation g)).
  rewrite expand_invocation by apply configured_targets.
  rewrite expand_nil. cbn [fmap option_fmap option_map].
  by rewrite app_nil_r.
Qed.

(** ** The header on the example vendor configuration *)

Example example_bootcommand :
  replace_macros (configured example_vendor empty_state)
    [TId "CONFIG_BOOTCOMMAND"; TId "CONFIG_SYS_MAXARGS"]
  = Some [TStr "run bootcmd_pxe"; TNum 64].
Proof. vm_compute. reflexivity. Qed.

Example example_expansion :
  expand (configured example_vendor empty_state) "BOOTENV_DEV_NAME"
    try_generator spelling
    (TStr "boot_targets=" :: invocation "BOOTENV_DEV_NAME")
  = Some [ String.append dquote (String.append "boot_targets=" dquote);
           "try pxena"; "try mmc1"; "try mmc0"; "try usb0"; "try dhcpna" ].
Proof. vm_compute. reflexivity. Qed.

Example example_diagnostics :
  diags (run_header example_vendor platform_top_h empty_state)
  = [Redefined "CONFIG_BOOTCOMMAND"].
Proof. vm_compute. reflexivity. Qed.

(** A generator name that no parenthesis follows is left alone, and an
    invocation with the wrong number of arguments fails. *)
Example example_rescan :
  rescan "G" try_generator spelling
    (generator_call "G" (TId "USB") (TId "usb") (TNum 0) ++ [TId "G"])
  = Some ["try usb0"; "G"] /\
  rescan "G" try_generator spelling
    [TId "G"; TLParen; TId "USB"; TComma; TId "usb"; TRParen]
  = None.
Proof. split; reflexivity. Qed.

(** * The claims of the specification *)

(** In all of them [inc] is what the [#include] of line 1 does and [st0]
    the state of the preprocessor before the header: the statements hold
    in every build, whatever the vendor configuration defines. *)
Section Claims.
Variable inc : include_handler.
Variable st0 : cpp_state.

(** C1: in every build the expansion of [BOOT_TARGET_DEVICES] is a device
    list of exactly five entries, in the order PXE, MMC instance 1, MMC
    instance 0, USB instance 0, DHCP. *)
Theorem device_list_five_entries (g : string) :
  device_list (configured inc st0) g =
  Some [ inr (TId "PXE", TId "pxe", TId "na");
         inr (TId "MMC", TId "mmc", TNum 1);
         inr (TId "MMC", TId "mmc", TNum 0);
         inr (TId "USB", TId "usb", TNum 0);
         inr (TId "DHCP", TId "dhcp", TId "na") ].
Proof. unfold device_list. rewrite expand_configured. reflexivity. Qed.

(** C2: with the generator
    [f(class, transport, qualifier) = "try <transport><qualifier>"],
    [BOOT_TARGET_DEVICES(f)] expands to "try pxena", "try mmc1",
    "try mmc0", "try usb0", "try dhcpna", in this order. *)
Theorem try_generator_expansion (f : string) :
  expand (configured inc st0) f try_generator spelling (invocation f) =
  Some ["try pxena"; "try mmc1"; "try mmc0"; "try usb0"; "try dhcpna"].
Proof. rewrite expand_configured. reflexivity. Qed.

(** C3: [CONFIG_BOOTCOMMAND] is an object-like macro whose replacement is
    one string literal, "run bootcmd_pxe"; it expands to exactly this
    token, and the string is the command that runs the boot script of the
    PXE target. *)
Theorem bootcommand_is_pxe :
  configured inc st0 !! "CONFIG_BOOTCOMMAND"
    = Some (ObjectLike [TStr "run bootcmd_pxe"]) /\
  replace_macros (configured inc st0) [TId "CONFIG_BOOTCOMMAND"]
    = Some [TStr "run bootcmd_pxe"] /\
  run_target (TId "PXE", TId "pxe", TId "na") = "run bootcmd_pxe".
Proof.
  split; [apply configured_bootcommand|].
  split; [|reflexivity].
  apply replace_bootcommand, configured_bootcommand.
Qed.

(** C5: for every generator, the expansion of [BOOT_TARGET_DEVICES] is the
    concatenation, in the order of the priority list (PXE, pxe, na),
    (MMC, mmc, 1), (MMC, mmc, 0), (USB, usb, 0), (DHCP, dhcp, na), of the
    fragments the generator gives for the entries, applied once to each;
    the device list holds these entries only, no token outside an
    invocation of the generator. *)
Theorem expansion_is_concat_map (g : string) :
  let es : list entry :=
    [ (TId "PXE", TId "pxe", TId "na");
      (TId "MMC", TId "mmc", TNum 1);
      (TId "MMC", TId "mmc", TNum 0);
      (TId "USB", TId "usb", TNum 0);
      (TId "DHCP", TId "dhcp", TId "na") ] in
  device_list (configured inc st0) g = Some (inr <$> es) /\
  forall (A : Type) (gen : generator A) (emit : token -> A),
    expand (configured inc st0) g gen emit (invocation g) =
    Some (concat (apply_generator gen <$> es)).
Proof.
  intros es. subst es. split.
  - unfold device_list. by rewrite expand_configured.
  - intros A gen emit. rewrite expand_configured.
    cbn [fmap list_fmap concat].
    unfold apply_generator, entry_class, entry_transport, entry_qualifier.
    cbn [fst snd]. by rewrite app_nil_r.
Qed.

(** C6: two successive expansions of [BOOT_TARGET_DEVICES] with the same
    generator give the same output: the text with two invocations expands
    to the output of one invocation, twice. *)
Theorem expansion_twice (g : string) (A : Type) (gen : generator A)
    (emit : token -> A) :
  exists out : list A,
    expand (configured inc st0) g gen emit (invocation g) = Some out /\
    expand (configured inc st0) g gen emit (invocation g ++ invocation g)
      = Some (out ++ out).
Proof.
  eexists. split; [apply expand_configured|].
  rewrite expand_invocation by apply configured_targets.
  by rewrite expand_configured.
Qed.

(** C7: the header defines two macros, [CONFIG_BOOTCOMMAND] and
    [BOOT_TARGET_DEVICES], and the macro table it leaves behind is the
    table of the vendor configuration with these two entries replaced:
    every other definition is as the vendor configuration made it. *)
Theorem two_symbols_defined :
  defined_names platform_top_h
    = ["CONFIG_BOOTCOMMAND"; "BOOT_TARGET_DEVICES"] /\
  configured inc st0 =
    <["BOOT_TARGET_DEVICES" := BOOT_TARGET_DEVICES]>
      (<["CONFIG_BOOTCOMMAND" := CONFIG_BOOTCOMMAND]>
         (macros (vendor_state inc st0))).
Proof. split; [reflexivity | apply configured_eq]. Qed.

(** C8: the expansion has no failure of its own: the invocation of
    [BOOT_TARGET_DEVICES] with one argument always has a replacement, and
    for every generator the expansion of [BOOT_TARGET_DEVICES(g)] produces
    an output sequence. *)
Theorem expansion_total :
  (forall arg : list token,
     is_Some (call_macro (configured inc st0) "BOOT_TARGET_DEVICES" [arg])) /\
  (forall (g : string) (A : Type) (gen : generator A) (emit : token -> A),
     is_Some (expand (configured inc st0) g gen emit (invocation g))).
Proof.
  split.
  - intros arg. unfold call_macro. rewrite configured_targets.
    unfold BOOT_TARGET_DEVICES. rewrite invoke_targets. by eexists.
  - intros g A gen emit. rewrite expand_configured. by eexists.
Qed.

(** C9: the default boot command and the device list agree: the command is
    the one that runs the boot script of the first entry of the list, whose
    class is PXE, and it runs the script of no other entry. *)
Theorem bootcommand_selects_first_entry (g : string) :
  exists (cmd : string) (e : entry) (es : list entry),
    replace_macros (configured inc st0) [TId "CONFIG_BOOTCOMMAND"]
      = Some [TStr cmd] /\
    device_list (configured inc st0) g = Some (inr <$> (e :: es)) /\
    entry_class e = TId "PXE" /\
    cmd = run_target e /\
    Forall (fun e' => cmd <> run_target e') es.
Proof.
  exists "run bootcmd_pxe", (TId "PXE", TId "pxe", TId "na").
  exists [ (TId "MMC", TId "mmc", TNum 1);
           (TId "MMC", TId "mmc", TNum 0);
           (TId "USB", TId "usb", TNum 0);
           (TId "DHCP", TId "dhcp", TId "na") ].
  split; [apply replace_bootcommand, configured_bootcommand|].
  split; [unfold device_list; by rewrite expand_configured|].
  split; [reflexivity|]. split; [reflexivity|].
  repeat constructor; discriminate.
Qed.

(** C10: the device list is well formed: the five (transport, qualifier)
    pairs are pairwise distinct; every entry is a network or a storage
    target; the network targets pxe and dhcp have the qualifier [na]; the
    storage targets are mmc 1, mmc 0 and usb 0, with integer qualifiers. *)
Theorem device_list_well_formed (g : string) :
  exists es : list entry,
    device_list (configured inc st0) g = Some (inr <$> es) /\
    length es = 5 /\
    NoDup (target <$> es) /\
    Forall (fun e => (network e || storage e) = true) es /\
    target <$> filter (fun e => network e = true) es
      = [(TId "pxe", TId "na"); (TId "dhcp", TId "na")] /\
    target <$> filter (fun e => storage e = true) es
      = [(TId "mmc", TNum 1); (TId "mmc", TNum 0); (TId "usb", TNum 0)].
Proof.
  exists [ (TId "PXE", TId "pxe", TId "na");
           (TId "MMC", TId "mmc", TNum 1);
           (TId "MMC", TId "mmc", TNum 0);
           (TId "USB", TId "usb", TNum 0);
           (TId "DHCP", TId "dhcp", TId "na") ].
  split; [unfold device_list; by rewrite expand_configured|].
  split; [reflexivity|].
  split; [by apply (bool_decide_unpack _)|].
  split; [by repeat constructor|].
  split; reflexivity.
Qed.
End Claims.

(** C4, as the header has it: both macros are defined after the vendor
    configuration is included, and both definitions prevail over the
    vendor's; an [#undef] stands before the [#define] of
    [BOOT_TARGET_DEVICES] only, [CONFIG_BOOTCOMMAND] is defined directly,
    the header has no [#undef] of it. *)
Theorem override_pattern :
  defined_names platform_top_h
    = ["CONFIG_BOOTCOMMAND"; "BOOT_TARGET_DEVICES"] /\
  undefined_names platform_top_h = ["BOOT_TARGET_DEVICES"] /\
  guarded_define "BOOT_TARGET_DEVICES" platform_top_h = true /\
  guarded_define "CONFIG_BOOTCOMMAND" platform_top_h = false /\
  forall (inc : include_handler) (st0 : cpp_state),
    configured inc st0 !! "CONFIG_BOOTCOMMAND" = Some CONFIG_BOOTCOMMAND /\
    configured inc st0 !! "BOOT_TARGET_DEVICES" = Some BOOT_TARGET_DEVICES.
Proof.
  repeat (split; [reflexivity|]).
  intros inc st0. split;
    [apply configured_bootcommand | apply configured_targets].
Qed.

(** C4 as the specification states it fails: [CONFIG_BOOTCOMMAND] is one of
    the two macros the header defines, and no [#undef] of it precedes its
    [#define]. *)
Lemma bootcommand_not_undefined :
  ("CONFIG_BOOTCOMMAND" ∈ defined_names platform_top_h) /\
  ("CONFIG_BOOTCOMMAND" ∉ undefined_names platform_top_h) /\
  ~ (forall name, name ∈ defined_names platform_top_h ->
                  guarded_define name platform_top_h = true).
Proof.
  split; [by apply (bool_decide_unpack _)|].
  split; [by apply (bool_decide_unpack _)|].
  intros H. specialize (H "CONFIG_BOOTCOMMAND").
  assert (Hin : "CONFIG_BOOTCOMMAND" ∈ defined_names platform_top_h)
    by (by apply (bool_decide_unpack _)).
  apply H in Hin. discriminate Hin.
Qed.

(** * Further properties of the header *)

(** ** The scanner and the identifiers of a text *)

(** A pass looks up the identifiers of the text only: two sets of visible
    macros that agree on them give the same result. *)
Lemma scan_agree {A} (v1 v2 : string -> option (replacement A)) emit ts :
  (forall n, n ∈ identifiers ts -> v1 n = v2 n) ->
  forall md, scan v1 emit md ts = scan v2 emit md ts.
Proof.
  induction ts as [|t ts IH]; intros Hag md; [done|].
  assert (Hts : forall n, n ∈ identifiers ts -> v1 n = v2 n).
  { intros n Hn. apply Hag. destruct t; cbn; try done. by right. }
  assert (Hst : start v1 emit t = start v2 emit t).
  { destruct t; try done. unfold start. rewrite (Hag s); [done|]. by left. }
  destruct md as [|n f|f d dn cur]; cbn [scan].
  - rewrite Hst. destruct (start v2 emit t) as [md' out]. by rewrite IH.
  - destruct t; try (rewrite Hst; destruct (start v2 emit _) as [md' out];
                     by rewrite IH).
    by apply IH.
  - destruct t, d; try by apply IH.
    destruct (f (dn ++ [cur])); [|done]. cbn. by rewrite IH.
Qed.

(** Where no macro is visible the text is copied. *)
Lemma scan_no_macro ts :
  scan (fun _ => @None (replacement token)) id Copy ts = Some ts.
Proof.
  induction ts as [|t ts IH]; [done|].
  cbn [scan]. assert (Hst : start (fun _ => None) id t = (@Copy token, [t]))
    by by destruct t.
  rewrite Hst, IH. done.
Qed.

Lemma replace_macros_inert tbl ts :
  Forall (fun n => tbl !! n = None) (identifiers ts) ->
  replace_macros tbl ts = Some ts.
Proof.
  intros Hall. unfold replace_macros.
  rewrite (scan_agree _ (fun _ => None)); [apply scan_no_macro|].
  intros n Hn. unfold table_view.
  rewrite Forall_forall in Hall. by rewrite (Hall n Hn).
Qed.

Lemma identifiers_app ts1 ts2 :
  identifiers (ts1 ++ ts2) = identifiers ts1 ++ identifiers ts2.
Proof. apply omap_app. Qed.

(** Between the parentheses of an invocation, a well-formed argument is
    collected as it is, up to the parenthesis that closes the invocation. *)
Lemma scan_argument {A} (v : string -> option (replacement A)) emit f
    (arg : list token) :
  forall d dn cur rest,
    argument_ok d arg = true ->
    scan v emit (Args f d dn cur) (arg ++ TRParen :: rest) =
    out ← f (dn ++ [cur ++ arg]); app out <$> scan v emit Copy rest.
Proof.
  induction arg as [|t arg IH]; intros d dn cur rest Hok.
  - destruct d; [|done]. cbn [app scan]. by rewrite app_nil_r.
  - cbn [app scan].
    destruct t; cbn [argument_ok] in Hok.
    + rewrite IH by done. by rewrite <- (assoc_L app).
    + rewrite IH by done. by rewrite <- (assoc_L app).
    + rewrite IH by done. by rewrite <- (assoc_L app).
    + destruct d; rewrite IH by done; by rewrite <- (assoc_L app).
    + destruct d as [|d']; [done|]. rewrite IH by done.
      by rewrite <- (assoc_L app).
    + destruct d as [|d']; [done|]. rewrite IH by done.
      by rewrite <- (assoc_L app).
Qed.

Lemma cpp_state_eq (a b : cpp_state) :
  macros a = macros b -> diags a = diags b -> a = b.
Proof. destruct a, b; cbn; by intros -> ->. Qed.

Lemma free_identifiers_targets :
  free_identifiers BOOT_TARGET_DEVICES =
  ["PXE"; "pxe"; "na"; "MMC"; "mmc"; "MMC"; "mmc"; "USB"; "usb";
   "DHCP"; "dhcp"; "na"].
Proof. vm_compute. reflexivity. Qed.

(** ** Redefinitions and repeated inclusion *)

(** X1: the header adds to the redefinition diagnostics of the vendor
    configuration exactly one, of [CONFIG_BOOTCOMMAND], when the vendor
    configuration has a different boot command, and none otherwise; it
    never adds one of [BOOT_TARGET_DEVICES], whatever the vendor's device
    list was, as line 5 removes that first. *)
Theorem header_diagnostics (inc : include_handler) (st0 : cpp_state) :
  diags (run_header inc platform_top_h st0) =
  diags (vendor_state inc st0)
  ++ bootcommand_diagnostic (macros (vendor_state inc st0)).
Proof.
  unfold platform_top_h, run_header; simpl.
  rewrite diags_define_fresh
    by (rewrite macros_undef; apply lookup_delete_eq).
  simpl. fold (vendor_state inc st0).
  unfold bootcommand_diagnostic, define.
  destruct (macros (vendor_state inc st0) !! "CONFIG_BOOTCOMMAND")
    as [old|]; [|by rewrite app_nil_r].
  case_decide; [by rewrite app_nil_r | done].
Qed.

(** X2: the header can be included again: when the second [#include] of
    the vendor configuration changes nothing (it is behind an include
    guard), processing the header a second time leaves the macro table as
    it is and adds no redefinition diagnostic. *)
Theorem header_idempotent (inc : include_handler) (st0 : cpp_state) :
  inc "configs/xilinx_zynqmp.h" (run_header inc platform_top_h st0)
    = run_header inc platform_top_h st0 ->
  run_header inc platform_top_h (run_header inc platform_top_h st0)
    = run_header inc platform_top_h st0.
Proof.
  intros Hguard.
  pose proof (configured_bootcommand inc st0) as Hcmd.
  pose proof (configured_targets inc st0) as Htgt.
  unfold configured in Hcmd, Htgt.
  set (st1 := run_header inc platform_top_h st0) in *.
  unfold platform_top_h at 1. unfold run_header at 1. cbn [foldl run_directive].
  rewrite Hguard.
  assert (Hdef : define "CONFIG_BOOTCOMMAND" CONFIG_BOOTCOMMAND st1 = st1).
  { unfold define. rewrite Hcmd. by rewrite decide_True. }
  rewrite Hdef. apply cpp_state_eq.
  - rewrite macros_define, macros_undef, insert_delete_eq.
    by apply insert_id.
  - by rewrite diags_define_fresh
      by (rewrite macros_undef; apply lookup_delete_eq).
Qed.

Lemma header_idempotent_witness :
  guarded_vendor "configs/xilinx_zynqmp.h"
      (run_header guarded_vendor platform_top_h empty_state)
    = run_header guarded_vendor platform_top_h empty_state /\
  run_header guarded_vendor platform_top_h
      (run_header guarded_vendor platform_top_h empty_state)
    = run_header guarded_vendor platform_top_h empty_state.
Proof.
  split; [vm_compute; reflexivity|].
  apply (header_idempotent guarded_vendor empty_state).
  vm_compute; reflexivity.
Defined.

(** ** The invocation and its argument *)

(** X4: [BOOT_TARGET_DEVICES] takes exactly one argument: its invocation
    has a replacement if and only if one argument is given. *)
Theorem targets_arity (inc : include_handler) (st0 : cpp_state)
    (args : list (list token)) :
  is_Some (call_macro (configured inc st0) "BOOT_TARGET_DEVICES" args)
  <-> length args = 1.
Proof.
  unfold call_macro. rewrite configured_targets.
  unfold BOOT_TARGET_DEVICES, invoke. cbn [length].
  case_decide as Hlen.
  - split; [done | by eexists].
  - split; [by intros [? ?] | intros Heq; by rewrite Heq in Hlen].
Qed.

(** X5: the argument of [BOOT_TARGET_DEVICES] may be any well-formed
    argument text.  When neither its identifiers nor the identifiers of
    the entries are macros of the build, the invocation is replaced by the
    argument, as it is written, before the parenthesised class, transport
    and qualifier of each of the five entries, in the order of the list,
    and this text holds no further macro. *)
Theorem targets_replacement (inc : include_handler) (st0 : cpp_state)
    (arg : list token) :
  argument_ok 0 arg = true ->
  Forall (fun n => configured inc st0 !! n = None)
    (identifiers arg ++ free_identifiers BOOT_TARGET_DEVICES) ->
  let out :=
    concat ((fun e : entry =>
               arg ++ [TLParen; entry_class e; TComma; entry_transport e;
                       TComma; entry_qualifier e; TRParen])
            <$> [ (TId "PXE", TId "pxe", TId "na");
                  (TId "MMC", TId "mmc", TNum 1);
                  (TId "MMC", TId "mmc", TNum 0);
                  (TId "USB", TId "usb", TNum 0);
                  (TId "DHCP", TId "dhcp", TId "na") ]) in
  replace_macros (configured inc st0)
    (TId "BOOT_TARGET_DEVICES" :: TLParen :: arg ++ [TRParen]) = Some out /\
  replace_macros (configured inc st0) out = Some out.
Proof.
  rewrite free_identifiers_targets. intros Hok Hall out. subst out.
  cbn [fmap list_fmap concat entry_class entry_transport entry_qualifier
       fst snd].
  rewrite app_nil_r. split.
  - unfold replace_macros. cbn [scan start]. unfold table_view at 1.
    rewrite configured_targets. unfold BOOT_TARGET_DEVICES at 1.
    cbn [scan fmap option_fmap option_map app].
    rewrite scan_argument by done. cbn [app scan].
    change (invoke ["func"] ?b [arg])
      with (invoke ["func"] (macro_body BOOT_TARGET_DEVICES) [arg]).
    rewrite invoke_targets. cbn [mbind option_bind fmap option_fmap option_map].
    rewrite app_nil_r. by rewrite <- !(assoc_L app).
  - apply replace_macros_inert.
    apply Forall_app in Hall as [Harg Hent].
    rewrite !Forall_cons in Hent. destruct_and!.
    rewrite !identifiers_app. cbn [identifiers omap list_omap].
    repeat first [ assumption
                 | apply Forall_nil_2
                 | apply Forall_cons; split
                 | apply Forall_app; split ].
Qed.

Lemma targets_replacement_witness :
  replace_macros (configured example_vendor empty_state)
    (TId "BOOT_TARGET_DEVICES" :: TLParen
     :: [TId "ENV"; TLParen; TNum 1; TComma; TStr "boot"; TRParen]
     ++ [TRParen])
  = Some
      (concat ((fun e : entry =>
                  [TId "ENV"; TLParen; TNum 1; TComma; TStr "boot"; TRParen]
                  ++ [TLParen; entry_class e; TComma; entry_transport e;
                      TComma; entry_qualifier e; TRParen])
               <$> [ (TId "PXE", TId "pxe", TId "na");
                     (TId "MMC", TId "mmc", TNum 1);
                     (TId "MMC", TId "mmc", TNum 0);
                     (TId "USB", TId "usb", TNum 0);
                     (TId "DHCP", TId "dhcp", TId "na") ])).
Proof.
  apply (targets_replacement example_vendor empty_state
           [TId "ENV"; TLParen; TNum 1; TComma; TStr "boot"; TRParen]).
  - reflexivity.
  - repeat constructor; vm_compute; reflexivity.
Defined.



(** Without the condition the entries are not safe: a vendor
    configuration that defines [na] has it replaced in the arguments. *)
Example example_vendor_clash :
  (replace_macros
     (configured (fun _ => define "na" (ObjectLike [TNum 0])) empty_state)
     (invocation "G")
   ≫= replace_macros
        (configured (fun _ => define "na" (ObjectLike [TNum 0])) empty_state))
  = Some (generator_call "G" (TId "PXE") (TId "pxe") (TNum 0)
          ++ generator_call "G" (TId "MMC") (TId "mmc") (TNum 1)
          ++ generator_call "G" (TId "MMC") (TId "mmc") (TNum 0)
          ++ generator_call "G" (TId "USB") (TId "usb") (TNum 0)
          ++ generator_call "G" (TId "DHCP") (TId "dhcp") (TNum 0)).
Proof. vm_compute. reflexivity. Qed.
